(** * A shallow embedding of examples/run_training.py (drlfoam)

    The training driver is a single effectful function, [main].  We model it
    in a small state-and-exception monad whose state records the calls the
    driver makes on its collaborators (filesystem, environment, buffer, agent)
    as a trace of events, together with the start/end times of the buffer's
    base environment, which the driver reads and writes directly.

    The collaborators themselves (the drlfoam package: buffers, agents,
    environments, [check_finish_time]) are not part of this file; what they
    return to the driver is given by a [World]: one record of answers, over
    which every theorem quantifies. *)

From Stdlib Require Import String Ascii List ZArith QArith Lia Bool.
Import ListNotations.
Open Scope string_scope.

(** ** Data *)

(** A tensor is kept as its list of entries; the driver never inspects them
    except through [len] in [print_statistics]. *)
Definition Tensor := list Q.

(** [buffer.observations]: the parallel sequences of per-trial tensors. *)
Record Obs := mkObs {
  obs_states : list Tensor;
  obs_actions : list Tensor;
  obs_rewards : list Tensor
}.

(** [start_time] / [end_time] of an environment. *)
Record EnvTimes := mkTimes {
  start_time : Q;
  end_time : Q
}.

Inductive Backend := LocalBackend | SlurmBackend.

(** Calls made by [main] on the outside world, in the order they happen. *)
Inductive Event :=
| EMakedirs (p : string)                   (* makedirs(p, exist_ok=True) *)
| ECopytree (src dst : string)             (* copytree(src, dst, ...) *)
| ENewEnv (sim : string)                   (* SIMULATION_ENVIRONMENTS[sim]() *)
| ESetEnvPath (p : string)                 (* env.path = p *)
| ECheckFinish (t : Q) (sim : string)      (* check_finish_time(BASE_PATH, t, sim) *)
| ENewBuffer (b : Backend)                 (* LocalBuffer(...) / SlurmBuffer(...) *)
| ENewAgent (sim : string)                 (* PPOAgent(..., **DEFAULT_CONFIG[sim]) *)
| ELoadState (p : string)                  (* agent.load_state(p) *)
| ESetNFills (n : Z)                       (* buffer._n_fills = n *)
| EDummyPolicy (p : string)                (* create_dummy_policy(..., p, ...) *)
| EPrepare                                 (* buffer.prepare() *)
| ESetStart (t : Q)                        (* buffer.base_env.start_time = t *)
| ESetEnd (t : Q)                          (* buffer.base_env.end_time = t *)
| EReset                                   (* buffer.reset() *)
| ELogStart (e : Z)                        (* logger.info("Start of episode e") *)
| EFill                                    (* buffer.fill() *)
| EReadObs                                 (* buffer.observations *)
| ELogStats                                (* logger.info(statistics) *)
| EUpdate (s a r : list Tensor)            (* agent.update(s, a, r) *)
| ESaveState (p : string)                  (* agent.save_state(p) *)
| ETracePolicy                             (* agent.trace_policy() *)
| EUpdatePolicy                            (* buffer.update_policy(policy) *)
| ESavePolicy (p : string)                 (* current_policy.save(p) *)
| ELogTime.                                (* logger.info("Training time ...") *)

(** Python exceptions that can leave [main]. [FinishTimeRejected] stands for
    whatever [check_finish_time] does when it refuses the finish time. *)
Inductive Exc :=
| ValueError (msg : string)
| IndexError
| ZeroDivisionError
| FinishTimeRejected.

(** The command-line arguments ([parseArguments]). *)
Record Args := mkArgs {
  output : string;
  environment : string;
  iter : Z;
  runners : Z;
  buffer : Z;
  finish : Q;
  timeout : Z;
  checkpoint : string;
  simulation : string
}.

(** What the collaborators answer.  [drl_base] is [environ.get("DRL_BASE", "")];
    [base_exists] is [exists(join(training_path, "base"))]; [env_defaults sim]
    the times of a freshly built environment of case [sim]; [finish_ok] whether
    [check_finish_time] returns; [prepare_effect] what [buffer.prepare()] does
    to the base environment's times; [history] is [agent.history["episode"]]
    after [load_state]; [obs e] is [buffer.observations] after the fill of
    episode [e]. *)
Record World := mkWorld {
  drl_base : string;
  base_exists : bool;
  env_defaults : string -> EnvTimes;
  finish_ok : bool;
  prepare_effect : EnvTimes -> EnvTimes;
  history : list Z;
  obs : Z -> Obs
}.

(** ** The monad *)

Record St := mkSt {
  trace : list Event;
  base_env : EnvTimes
}.

Definition M (A : Type) := St -> (Exc + A) * St.

Definition ret {A} (a : A) : M A := fun s => (inr a, s).

Definition bind {A B} (m : M A) (k : A -> M B) : M B :=
  fun s => match m s with
           | (inl x, s') => (inl x, s')
           | (inr a, s') => k a s'
           end.

Definition raise {A} (x : Exc) : M A := fun s => (inl x, s).

Definition app_tr (s : St) (l : list Event) : St :=
  mkSt (trace s ++ l)%list (base_env s).

Definition emit (ev : Event) : M unit := fun s => (inr tt, app_tr s [ev]).

Definition get_env : M EnvTimes := fun s => (inr (base_env s), s).

Definition put_env (t : EnvTimes) : M unit :=
  fun s => (inr tt, mkSt (trace s) t).

Notation "x <- c1 ;; c2" := (bind c1 (fun x => c2))
  (at level 61, c1 at next level, right associativity).
Notation "c1 ;; c2" := (bind c1 (fun _ => c2))
  (at level 61, right associativity).

Definition init_st : St := mkSt [] (mkTimes 0 0).

(** ** Python helpers *)

(** [str.lower] on ASCII characters.  Python also lowercases non-ASCII
    letters; no such letter lowercases to an ASCII one of ["local"] or
    ["slurm"], so the difference only shows in the text of the
    unknown-executer message. *)
Definition lower_char (c : ascii) : ascii :=
  let n := nat_of_ascii c in
  if (65 <=? n)%nat && (n <=? 90)%nat then ascii_of_nat (n + 32) else c.

Fixpoint lower (s : string) : string :=
  match s with
  | EmptyString => EmptyString
  | String c r => String (lower_char c) (lower r)
  end.

(** [os.path.join(a, b)]. *)
Definition ends_with_slash (a : string) : bool :=
  match String.get (String.length a - 1) a with
  | Some c => Ascii.eqb c "/"%char
  | None => false
  end.

Definition join (a b : string) : string :=
  if String.prefix "/" b then b
  else if String.eqb a "" then b
  else if ends_with_slash a then a ++ b
  else a ++ "/" ++ b.

(** [str(n)] on integers. *)
Fixpoint digits (fuel n : nat) (acc : string) : string :=
  match fuel with
  | O => acc
  | S f =>
      let acc' := String (ascii_of_nat (48 + n mod 10)) acc in
      if (n <? 10)%nat then acc' else digits f (n / 10) acc'
  end.

Definition str_nat (n : nat) : string := digits (S n) n "".

Definition str_Z (z : Z) : string :=
  match z with
  | Zneg p => "-" ++ str_nat (Pos.to_nat p)
  | _ => str_nat (Z.to_nat z)
  end.

(** [range(e, e + n)] *)
Fixpoint zseq (e : Z) (n : nat) : list Z :=
  match n with
  | O => []
  | S m => e :: zseq (e + 1)%Z m
  end.

Definition nl : string := String (ascii_of_nat 10) "".

(** ** The driver *)

(** [SIMULATION_ENVIRONMENTS.keys()] *)
Definition SIMULATION_ENVIRONMENTS : list string :=
  ["rotatingCylinder2D"; "rotatingPinball2D"].

Definition is_known_simulation (sim : string) : bool :=
  existsb (String.eqb sim) SIMULATION_ENVIRONMENTS.

Definition unknown_simulation_msg (sim : string) : string :=
  "Unknown simulation environment " ++ sim ++ "Available options are:" ++ nl ++ nl
  ++ String.concat nl SIMULATION_ENVIRONMENTS ++ nl.

Definition unknown_executer_msg (executer : string) : string :=
  "Unknown executer " ++ executer ++ "; available options are 'local' and 'slurm'.".

(** The [if executer == "local": ... elif executer == "slurm": ...] chain. *)
Definition backend_of (executer : string) : option Backend :=
  if String.eqb executer "local" then Some LocalBackend
  else if String.eqb executer "slurm" then Some SlurmBackend
  else None.

(** [check_finish_time(BASE_PATH, end_time, simulation)] (drlfoam package):
    returns, or stops the run, as the world says. *)
Definition check_finish_time (w : World) (t : Q) (sim : string) : M unit :=
  emit (ECheckFinish t sim) ;;
  if finish_ok w then ret tt else raise FinishTimeRejected.

(** [agent.history["episode"][-1]] *)
Definition last_entry (l : list Z) : M Z :=
  match rev l with
  | [] => raise IndexError
  | k :: _ => ret k
  end.

(** [print_statistics(actions, rewards)]: the floating-point summaries are
    kept only as the log event they produce; what matters to the control flow
    is that [sum(rt) / len(rt)] and [sum(at_mean) / len(at_mean)] divide by
    [len(rewards)] and [len(actions)], in that order. *)
Definition print_statistics (actions rewards : list Tensor) : M unit :=
  if (length rewards =? 0)%nat then raise ZeroDivisionError
  else if (length actions =? 0)%nat then raise ZeroDivisionError
  else emit ELogStats.

Definition checkpoint_name (e : Z) : string := "checkpoint_" ++ str_Z e ++ ".pt".

Definition policy_name (e : Z) : string := "policy_trace_" ++ str_Z e ++ ".pt".

(** Lines 97-157 of [main]: settings, directories, environment, buffer,
    agent, checkpoint loading or fresh start; returns [starting_episode]. *)
Definition setup (w : World) (args : Args) : M Z :=
  let training_path := output args in
  let executer := lower (environment args) in
  let checkpoint_file := checkpoint args in
  let sim := simulation args in
  emit (EMakedirs training_path) ;;
  if negb (is_known_simulation sim) then raise (ValueError (unknown_simulation_msg sim)) else
  (if base_exists w then ret tt
   else emit (ECopytree (join (join (join (drl_base w) "openfoam") "test_cases") sim)
                        (join training_path "base"))) ;;
  emit (ENewEnv sim) ;;
  put_env (env_defaults w sim) ;;
  emit (ESetEnvPath (join training_path "base")) ;;
  check_finish_time w (finish args) sim ;;
  (match backend_of executer with
   | Some b => emit (ENewBuffer b)
   | None => raise (ValueError (unknown_executer_msg executer))
   end) ;;
  emit (ENewAgent sim) ;;
  if negb (String.eqb checkpoint_file "") then
    emit (ELoadState (join training_path checkpoint_file)) ;;
    k <- last_entry (history w) ;;
    let starting_episode := (k + 1)%Z in
    emit (ESetNFills starting_episode) ;;
    ret starting_episode
  else
    emit (EDummyPolicy (join training_path "base")) ;;
    emit EPrepare ;;
    t <- get_env ;;
    put_env (prepare_effect w t) ;;
    ret 0%Z.

(** Lines 159-160: hand the simulation time window over to training. *)
Definition handoff (end_time' : Q) : M unit :=
  t <- get_env ;;
  emit (ESetStart (end_time t)) ;;
  put_env (mkTimes (end_time t) (end_time t)) ;;
  t' <- get_env ;;
  emit (ESetEnd end_time') ;;
  put_env (mkTimes (start_time t') end_time').

(** Lines 165-176: [for e in range(e0, episodes)], with [n = episodes - e0]
    iterations left. *)
Fixpoint train_loop (w : World) (training_path : string) (episodes : Z)
         (e : Z) (n : nat) : M unit :=
  match n with
  | O => ret tt
  | S m =>
      emit (ELogStart e) ;;
      emit EFill ;;
      emit EReadObs ;;
      let o := obs w e in
      print_statistics (obs_actions o) (obs_rewards o) ;;
      emit (EUpdate (obs_states o) (obs_actions o) (obs_rewards o)) ;;
      emit (ESaveState (join training_path (checkpoint_name e))) ;;
      emit ETracePolicy ;;
      emit EUpdatePolicy ;;
      emit (ESavePolicy (join training_path (policy_name e))) ;;
      (if negb (Z.eqb e (episodes - 1)) then emit EReset else ret tt) ;;
      train_loop w training_path episodes (e + 1)%Z m
  end.

(** [main(args)] *)
Definition main (w : World) (args : Args) : M unit :=
  starting_episode <- setup w args ;;
  handoff (finish args) ;;
  emit EReset ;;
  train_loop w (output args) (iter args) starting_episode
             (Z.to_nat (iter args - starting_episode)) ;;
  emit ELogTime.

Definition run_result (w : World) (args : Args) : Exc + unit :=
  fst (main w args init_st).

Definition run_trace (w : World) (args : Args) : list Event :=
  trace (snd (main w args init_st)).

(** ** Specification-side vocabulary *)

(** The calls of one completed episode [e], in source order. *)
Definition episode_block (w : World) (training_path : string) (episodes e : Z)
  : list Event :=
  let o := obs w e in
  [ELogStart e; EFill; EReadObs; ELogStats;
   EUpdate (obs_states o) (obs_actions o) (obs_rewards o);
   ESaveState (join training_path (checkpoint_name e));
   ETracePolicy; EUpdatePolicy;
   ESavePolicy (join training_path (policy_name e))]
  ++ (if negb (Z.eqb e (episodes - 1)) then [EReset] else [])%list.

Definition loop_blocks (w : World) (training_path : string) (episodes e : Z)
  (n : nat) : list Event :=
  List.concat (map (episode_block w training_path episodes) (zseq e n)).

Definition is_fill_or_reset (ev : Event) : bool :=
  match ev with EFill | EReset => true | _ => false end.

Definition is_save (ev : Event) : bool :=
  match ev with ESaveState _ | ESavePolicy _ => true | _ => false end.

(** [Fill; Reset; Fill; ...; Reset; Fill] with [n] fills. *)
Fixpoint fill_reset_pattern (n : nat) : list Event :=
  match n with
  | O => []
  | S O => [EFill]
  | S m => EFill :: EReset :: fill_reset_pattern m
  end.

Definition nonempty_obs (o : Obs) : bool :=
  negb (List.length (obs_rewards o) =? 0)%nat && negb (List.length (obs_actions o) =? 0)%nat.

(** ** Sample worlds *)

Definition tensor1 : Tensor := [1%Q].

Definition obs_full : Obs := mkObs [tensor1; tensor1] [tensor1; tensor1] [tensor1; tensor1].
Definition obs_empty : Obs := mkObs [] [] [].

Definition world_ok : World :=
  mkWorld "/opt/drlfoam" false (fun _ => mkTimes 0 4) true (fun t => t) [3%Z]
          (fun _ => obs_full).

Definition world_empty : World :=
  mkWorld "/opt/drlfoam" false (fun _ => mkTimes 0 4) true (fun t => t) [3%Z]
          (fun _ => obs_empty).

Definition args_fresh : Args :=
  mkArgs "test_training" "local" 2 4 4 8 60 "" "rotatingCylinder2D".

Definition all_nonempty (w : World) (e : Z) (n : nat) : bool :=
  forallb (fun i => nonempty_obs (obs w i)) (zseq e n).

(** State right after lines 159-161. *)
Definition after_handoff (s : St) (fin : Q) : St :=
  mkSt (trace s ++ [ESetStart (end_time (base_env s)); ESetEnd fin; EReset])%list
       (mkTimes (end_time (base_env s)) fin).

Definition copy_events (w : World) (args : Args) : list Event :=
  if base_exists w then []
  else [ECopytree (join (join (join (drl_base w) "openfoam") "test_cases") (simulation args))
                  (join (output args) "base")].

(** Calls up to and including [check_finish_time], for a known case. *)
Definition setup_prefix (w : World) (args : Args) : list Event :=
  [EMakedirs (output args)] ++ copy_events w args
  ++ [ENewEnv (simulation args); ESetEnvPath (join (output args) "base");
      ECheckFinish (finish args) (simulation args)].

Definition is_loop_event (ev : Event) : bool :=
  match ev with
  | ELogStart _ | EFill | EReadObs | ELogStats | EUpdate _ _ _ | ESaveState _
  | ETracePolicy | EUpdatePolicy | ESavePolicy _ | EReset => true
  | _ => false
  end.

Definition save_pair (tp : string) (e : Z) : list Event :=
  [ESaveState (join tp (checkpoint_name e)); ESavePolicy (join tp (policy_name e))].

Definition args_resume : Args :=
  mkArgs "test_training" "local" 6 4 4 8 60 "checkpoint_3.pt" "rotatingCylinder2D".
Definition args_foo : Args :=
  mkArgs "test_training" "local" 2 4 4 8 60 "" "foo".
Definition args_pbs : Args :=
  mkArgs "test_training" "pbs" 2 4 4 8 60 "" "rotatingPinball2D".
Definition args_upper : Args :=
  mkArgs "test_training" "LOCAL" 2 4 4 8 60 "" "rotatingCylinder2D".

Definition setup_ok_fresh : St := snd (setup world_ok args_fresh init_st).
Definition setup_empty_fresh : St := snd (setup world_empty args_fresh init_st).

(** Calls that belong to building the buffer and agent or to training. *)
Definition after_backend_event (ev : Event) : bool :=
  match ev with
  | ENewBuffer _ | ENewAgent _ | ELoadState _ | ESetNFills _ | EDummyPolicy _ | EPrepare => true
  | _ => is_loop_event ev
  end.

(** ** [DEFAULT_CONFIG] (lines 32-59) *)

(** One network entry ([policy_dict] / [value_dict]); the activation
    function is named. *)
Record NetConfig := mkNet {
  n_layers : Z;
  n_neurons : Z;
  activation : string
}.

(** The keyword arguments given to [PPOAgent]; a learning rate the dict does
    not list is [None] (the agent's own default applies). *)
Record AgentConfig := mkAgentConfig {
  policy_dict : NetConfig;
  value_dict : NetConfig;
  policy_lr : option Q;
  value_lr : option Q
}.

Definition DEFAULT_CONFIG : list (string * AgentConfig) :=
  [("rotatingCylinder2D",
    mkAgentConfig (mkNet 2 64 "relu") (mkNet 2 64 "relu") None None);
   ("rotatingPinball2D",
    mkAgentConfig (mkNet 2 512 "relu") (mkNet 2 512 "relu")
                  (Some (4 # 10000)) (Some (4 # 10000)))].

(** [DEFAULT_CONFIG[k]]; [None] is the [KeyError]. *)
Fixpoint lookup_config (k : string) (d : list (string * AgentConfig)) : option AgentConfig :=
  match d with
  | [] => None
  | (k', c) :: r => if String.eqb k k' then Some c else lookup_config k r
  end.

(** ** Reading back decimal numerals *)

Definition is_digit (c : ascii) : bool :=
  (48 <=? nat_of_ascii c)%nat && (nat_of_ascii c <? 58)%nat.

Fixpoint all_digits (s : string) : bool :=
  match s with
  | EmptyString => true
  | String c r => is_digit c && all_digits r
  end.

(** Horner evaluation of a digit string, starting from [v]. *)
Fixpoint dval (v : nat) (s : string) : nat :=
  match s with
  | EmptyString => v
  | String c r => dval (10 * v + (nat_of_ascii c - 48)) r
  end.

(** Inverse of [str_Z]. *)
Definition read_Z (s : string) : Z :=
  match s with
  | String c r => if Ascii.eqb c "-"%char then (- Z.of_nat (dval 0 r))%Z
                  else Z.of_nat (dval 0 s)
  | EmptyString => 0%Z
  end.

(** The episode [main] starts from, read off the source's two branches. *)
Definition starting_episode_of (w : World) (args : Args) : Z :=
  if String.eqb (checkpoint args) "" then 0%Z
  else match rev (history w) with
       | k :: _ => (k + 1)%Z
       | [] => 0%Z
       end.

(** Calls of lines 108-124 (before the buffer is built). *)
Definition is_config_event (ev : Event) : bool :=
  match ev with
  | EMakedirs _ | ECopytree _ _ | ENewEnv _ | ESetEnvPath _ | ECheckFinish _ _ => true
  | _ => false
  end.

Definition world_no_history : World :=
  mkWorld "/opt/drlfoam" true (fun _ => mkTimes 0 4) true (fun t => t) []
          (fun _ => obs_full).

Definition args_done : Args :=
  mkArgs "test_training" "local" 4 4 4 8 60 "checkpoint_3.pt" "rotatingCylinder2D".

Definition args_abs : Args :=
  mkArgs "test_training" "slurm" 6 4 4 8 60 "/data/checkpoint_3.pt" "rotatingPinball2D".

Definition world_late : World :=
  mkWorld "/opt/drlfoam" false (fun _ => mkTimes 0 4) false (fun t => t) [3%Z]
          (fun _ => obs_full).

(** The ["Start of episode e"] log lines and the [agent.update] calls. *)
Definition is_start_or_update (ev : Event) : bool :=
  match ev with ELogStart _ | EUpdate _ _ _ => true | _ => false end.

(** Episodes [es] each started and then updated with their own
    [buffer.observations]. *)
Definition update_pairs (w : World) (es : list Z) : list Event :=
  List.concat (map (fun e => [ELogStart e;
                              EUpdate (obs_states (obs w e)) (obs_actions (obs w e))
                                      (obs_rewards (obs w e))]) es).

(** The file an [agent.save_state] or [current_policy.save] call writes. *)
Definition saved_path (ev : Event) : string :=
  match ev with ESaveState p | ESavePolicy p => p | _ => "" end.

Example str_Z_ex : str_Z 120 = "120" /\ str_Z 0 = "0" /\ str_Z (-7) = "-7".
Proof. vm_compute. repeat split. Qed.

Example join_ex : join "out" "checkpoint_3.pt" = "out/checkpoint_3.pt"
  /\ join "out/" "a" = "out/a" /\ join "out" "/abs" = "/abs".
Proof. vm_compute. repeat split. Qed.

Example lower_ex : lower "LoCaL" = "local" /\ lower "SLURM" = "slurm".
Proof. vm_compute. split; reflexivity. Qed.

Example run_fresh_ex :
  run_result world_ok args_fresh = inr tt /\
  filter is_save (run_trace world_ok args_fresh)
  = [ESaveState "test_training/checkpoint_0.pt"; ESavePolicy "test_training/policy_trace_0.pt";
     ESaveState "test_training/checkpoint_1.pt"; ESavePolicy "test_training/policy_trace_1.pt"].
Proof. vm_compute. split; reflexivity. Qed.

(** ** Monad and loop lemmas *)

Lemma app_tr_app s l1 l2 : app_tr (app_tr s l1) l2 = app_tr s (l1 ++ l2)%list.
Proof. unfold app_tr; simpl; now rewrite app_assoc. Qed.

Lemma app_tr_nil s : app_tr s [] = s.
Proof. destruct s; unfold app_tr; simpl; now rewrite app_nil_r. Qed.

Lemma bind_emit {B} ev (k : unit -> M B) s : bind (emit ev) k s = k tt (app_tr s [ev]).
Proof. reflexivity. Qed.

Lemma bind_ret {A B} (a : A) (k : A -> M B) s : bind (ret a) k s = k a s.
Proof. reflexivity. Qed.

Lemma bind_raise {A B} x (k : A -> M B) s : bind (raise x) k s = (inl x, s).
Proof. reflexivity. Qed.

Ltac emits := repeat (rewrite ?bind_emit, ?bind_ret; cbv beta).

Lemma episode_step_ok w tp ep e m s :
  nonempty_obs (obs w e) = true ->
  train_loop w tp ep e (S m) s
  = train_loop w tp ep (e + 1)%Z m (app_tr s (episode_block w tp ep e)).
Proof.
  unfold nonempty_obs; intros H.
  apply andb_true_iff in H as [Hr Ha]; apply negb_true_iff in Hr, Ha.
  cbn [train_loop]; emits; unfold print_statistics; rewrite Hr, Ha; emits.
  unfold episode_block.
  destruct (negb (e =? ep - 1)%Z); emits; rewrite !app_tr_app; reflexivity.
Qed.

Lemma episode_step_fail w tp ep e m s :
  nonempty_obs (obs w e) = false ->
  train_loop w tp ep e (S m) s
  = (inl ZeroDivisionError, app_tr s [ELogStart e; EFill; EReadObs]).
Proof.
  unfold nonempty_obs; intros H.
  cbn [train_loop]; emits; unfold print_statistics.
  destruct (length (obs_rewards (obs w e)) =? 0)%nat; simpl in H.
  - rewrite bind_raise, !app_tr_app; reflexivity.
  - apply negb_false_iff in H; rewrite H, bind_raise, !app_tr_app; reflexivity.
Qed.

(** What the loop leaves behind: a prefix [done] of the full sequence of
    episode blocks, all of it when it returns normally, and it returns
    normally exactly when every fill of the range had data. *)
Lemma train_loop_run w tp ep : forall n e s,
  exists done rest,
    snd (train_loop w tp ep e n s) = app_tr s done /\
    (done ++ rest)%list = loop_blocks w tp ep e n /\
    (fst (train_loop w tp ep e n s) = inr tt <-> all_nonempty w e n = true) /\
    (fst (train_loop w tp ep e n s) = inr tt -> rest = []) /\
    (forall x, fst (train_loop w tp ep e n s) = inl x -> x = ZeroDivisionError) /\
    (forall st ac rw, In (EUpdate st ac rw) done ->
       exists i, In i (zseq e n) /\ obs w i = mkObs st ac rw /\ nonempty_obs (obs w i) = true).
Proof.
  unfold loop_blocks, all_nonempty.
  induction n as [|m IH]; intros e s.
  - exists [], []; cbn; rewrite app_tr_nil; repeat split; auto; try discriminate.
    intros st ac rw [].
  - cbn [zseq map List.concat forallb].
    destruct (nonempty_obs (obs w e)) eqn:Hne.
    + rewrite episode_step_ok by exact Hne.
      destruct (IH (e + 1)%Z (app_tr s (episode_block w tp ep e)))
        as (done & rest & H1 & H2 & H3 & H4 & H5 & H6).
      exists (episode_block w tp ep e ++ done)%list, rest.
      rewrite H1, app_tr_app, <- app_assoc, H2.
      split; [reflexivity|]; split; [reflexivity|]; split; [exact H3|].
      split; [exact H4|]; split; [exact H5|].
      intros st ac rw Hin; apply in_app_iff in Hin as [Hin|Hin].
      * exists e; split; [left; reflexivity|]; split; [|exact Hne].
        assert (Hu : EUpdate (obs_states (obs w e)) (obs_actions (obs w e))
                       (obs_rewards (obs w e)) = EUpdate st ac rw).
        { unfold episode_block in Hin; destruct (negb (e =? ep - 1)%Z); simpl in Hin;
            repeat (destruct Hin as [Hin|Hin]; [try discriminate Hin; exact Hin|]);
            contradiction. }
        injection Hu as <- <- <-; destruct (obs w e); reflexivity.
      * destruct (H6 st ac rw Hin) as (i & Hi & Ho & Hn).
        exists i; split; [right; exact Hi|]; split; assumption.
    + rewrite episode_step_fail by exact Hne.
      exists [ELogStart e; EFill; EReadObs],
        (skipn 3 (episode_block w tp ep e)
         ++ List.concat (map (episode_block w tp ep) (zseq (e + 1) m)))%list.
      simpl; split; [reflexivity|]; split; [unfold episode_block; reflexivity|].
      split; [split; discriminate|]; split; [discriminate|].
      split; [intros x Hx; congruence|].
      intros st ac rw Hin; simpl in Hin; intuition discriminate.
Qed.

Lemma train_loop_ok w tp ep e n s :
  all_nonempty w e n = true ->
  train_loop w tp ep e n s = (inr tt, app_tr s (loop_blocks w tp ep e n)).
Proof.
  intros H.
  destruct (train_loop_run w tp ep n e s) as (done & rest & H1 & H2 & H3 & H4 & _ & _).
  apply H3 in H; specialize (H4 H); subst rest; rewrite app_nil_r in H2; subst done.
  destruct (train_loop w tp ep e n s) as [r s']; simpl in *; subst; reflexivity.
Qed.

Lemma main_after_setup w args se s :
  setup w args init_st = (inr se, s) ->
  main w args init_st
  = bind (train_loop w (output args) (iter args) se (Z.to_nat (iter args - se)))
         (fun _ => emit ELogTime) (after_handoff s (finish args)).
Proof.
  intros H; unfold main.
  change (bind (setup w args) ?k init_st)
    with (match setup w args init_st with
          | (inl x, s') => (inl x, s') | (inr a, s') => k a s' end).
  rewrite H.
  destruct s as [tr [st en]].
  cbn [bind handoff get_env put_env emit app_tr trace base_env start_time end_time].
  unfold after_handoff, app_tr; cbn [trace base_env end_time].
  rewrite <- !app_assoc; reflexivity.
Qed.

Lemma setup_failed_main w args x s :
  setup w args init_st = (inl x, s) -> main w args init_st = (inl x, s).
Proof.
  intros H; unfold main.
  change (bind (setup w args) ?k init_st)
    with (match setup w args init_st with
          | (inl x, s') => (inl x, s') | (inr a, s') => k a s' end).
  rewrite H; reflexivity.
Qed.

Lemma bind_loop_time {A} (m : M A) s :
  bind m (fun _ => emit ELogTime) s
  = match m s with
    | (inl x, s') => (inl x, s')
    | (inr _, s') => (inr tt, app_tr s' [ELogTime])
    end.
Proof. reflexivity. Qed.

(** ** What [setup] does, branch by branch *)

Lemma setup_unknown_simulation w args :
  is_known_simulation (simulation args) = false ->
  setup w args init_st
  = (inl (ValueError (unknown_simulation_msg (simulation args))),
     mkSt [EMakedirs (output args)] (mkTimes 0 0)).
Proof. intros Hk; unfold setup; cbv zeta; rewrite Hk; reflexivity. Qed.

Lemma setup_finish_rejected w args :
  is_known_simulation (simulation args) = true -> finish_ok w = false ->
  setup w args init_st
  = (inl FinishTimeRejected,
     mkSt (setup_prefix w args) (env_defaults w (simulation args))).
Proof.
  intros Hk Hf; unfold setup, check_finish_time, setup_prefix, copy_events; cbv zeta.
  rewrite Hk, Hf; destruct (base_exists w); reflexivity.
Qed.

Lemma setup_unknown_backend w args :
  is_known_simulation (simulation args) = true -> finish_ok w = true ->
  backend_of (lower (environment args)) = None ->
  setup w args init_st
  = (inl (ValueError (unknown_executer_msg (lower (environment args)))),
     mkSt (setup_prefix w args) (env_defaults w (simulation args))).
Proof.
  intros Hk Hf Hb; unfold setup, check_finish_time, setup_prefix, copy_events; cbv zeta.
  rewrite Hk, Hf, Hb; destruct (base_exists w); reflexivity.
Qed.

Lemma setup_resume w args b h k :
  is_known_simulation (simulation args) = true -> finish_ok w = true ->
  backend_of (lower (environment args)) = Some b ->
  String.eqb (checkpoint args) "" = false -> history w = (h ++ [k])%list ->
  setup w args init_st
  = (inr (k + 1)%Z,
     mkSt (setup_prefix w args
           ++ [ENewBuffer b; ENewAgent (simulation args);
               ELoadState (join (output args) (checkpoint args));
               ESetNFills (k + 1)%Z])
          (env_defaults w (simulation args))).
Proof.
  intros Hk Hf Hb Hc Hh.
  unfold setup, check_finish_time, last_entry, setup_prefix, copy_events; cbv zeta.
  rewrite Hk, Hf, Hb, Hc, Hh, rev_unit; destruct (base_exists w); reflexivity.
Qed.

Lemma setup_resume_no_history w args b :
  is_known_simulation (simulation args) = true -> finish_ok w = true ->
  backend_of (lower (environment args)) = Some b ->
  String.eqb (checkpoint args) "" = false -> history w = [] ->
  setup w args init_st
  = (inl IndexError,
     mkSt (setup_prefix w args
           ++ [ENewBuffer b; ENewAgent (simulation args);
               ELoadState (join (output args) (checkpoint args))])
          (env_defaults w (simulation args))).
Proof.
  intros Hk Hf Hb Hc Hh.
  unfold setup, check_finish_time, last_entry, setup_prefix, copy_events; cbv zeta.
  rewrite Hk, Hf, Hb, Hc, Hh; destruct (base_exists w); reflexivity.
Qed.

Lemma setup_fresh w args b :
  is_known_simulation (simulation args) = true -> finish_ok w = true ->
  backend_of (lower (environment args)) = Some b ->
  String.eqb (checkpoint args) "" = true ->
  setup w args init_st
  = (inr 0%Z,
     mkSt (setup_prefix w args
           ++ [ENewBuffer b; ENewAgent (simulation args);
               EDummyPolicy (join (output args) "base"); EPrepare])
          (prepare_effect w (env_defaults w (simulation args)))).
Proof.
  intros Hk Hf Hb Hc.
  unfold setup, check_finish_time, setup_prefix, copy_events; cbv zeta.
  rewrite Hk, Hf, Hb, Hc; destruct (base_exists w); reflexivity.
Qed.

(** ** Shape of a whole run *)

Lemma loop_blocks_events w tp ep e n x :
  In x (loop_blocks w tp ep e n) -> is_loop_event x = true.
Proof.
  unfold loop_blocks; intros H.
  apply in_concat in H as (l & Hl & Hx); apply in_map_iff in Hl as (i & <- & _).
  unfold episode_block in Hx; destruct (negb (i =? ep - 1)%Z); simpl in Hx;
    intuition (subst; reflexivity).
Qed.

Lemma main_run_shape w args se s :
  setup w args init_st = (inr se, s) ->
  exists done rest tl,
    run_trace w args
    = (trace s ++ [ESetStart (end_time (base_env s)); ESetEnd (finish args); EReset]
       ++ done ++ tl)%list /\
    (done ++ rest)%list = loop_blocks w (output args) (iter args) se (Z.to_nat (iter args - se)) /\
    (tl = [] \/ tl = [ELogTime]) /\
    (run_result w args = inr tt -> rest = [] /\ tl = [ELogTime]) /\
    (run_result w args = inr tt <->
       all_nonempty w se (Z.to_nat (iter args - se)) = true) /\
    (forall x, run_result w args = inl x -> x = ZeroDivisionError) /\
    (forall st ac rw, In (EUpdate st ac rw) done ->
       exists i, In i (zseq se (Z.to_nat (iter args - se))) /\ obs w i = mkObs st ac rw /\
                 nonempty_obs (obs w i) = true).
Proof.
  intros H; unfold run_trace, run_result; rewrite (main_after_setup _ _ _ _ H), bind_loop_time.
  destruct (train_loop_run w (output args) (iter args) (Z.to_nat (iter args - se)) se
              (after_handoff s (finish args))) as (done & rest & H1 & H2 & H3 & H4 & H5 & H6).
  destruct (train_loop w (output args) (iter args) se (Z.to_nat (iter args - se))
              (after_handoff s (finish args))) as [[x|[]] s'];
    simpl in H1, H3, H4, H5; subst s'.
  - exists done, rest, []; unfold after_handoff; simpl.
    rewrite app_nil_r, <- app_assoc.
    split; [reflexivity|]; split; [exact H2|]; split; [left; reflexivity|].
    split; [discriminate|].
    split; [split; [discriminate|intros Hx; apply H3 in Hx; discriminate]|].
    split; [intros y Hy; injection Hy as <-; apply H5; reflexivity|exact H6].
  - exists done, rest, [ELogTime]; unfold after_handoff; simpl.
    rewrite <- !app_assoc.
    split; [reflexivity|]; split; [exact H2|]; split; [right; reflexivity|].
    split; [intros _; split; [apply H4; reflexivity|reflexivity]|].
    split; [split; [intros _; apply H3; reflexivity|intros _; reflexivity]|].
    split; [intros y Hy; discriminate|exact H6].
Qed.

Lemma setup_trace_no_fill_reset w args se s :
  setup w args init_st = (inr se, s) -> filter is_fill_or_reset (trace s) = [].
Proof.
  intros H.
  destruct (is_known_simulation (simulation args)) eqn:Hk;
    [|rewrite setup_unknown_simulation in H by exact Hk; discriminate].
  destruct (finish_ok w) eqn:Hf;
    [|rewrite setup_finish_rejected in H by assumption; discriminate].
  destruct (backend_of (lower (environment args))) as [b|] eqn:Hb;
    [|rewrite setup_unknown_backend in H by assumption; discriminate].
  destruct (String.eqb (checkpoint args) "") eqn:Hc.
  - rewrite (setup_fresh w args b) in H by assumption; injection H as <- <-.
    unfold setup_prefix, copy_events; destruct (base_exists w); reflexivity.
  - remember (history w) as hl eqn:Hh; symmetry in Hh.
    destruct hl as [|k h _] using rev_ind.
    + rewrite (setup_resume_no_history w args b) in H by assumption; discriminate.
    + rewrite (setup_resume w args b h k) in H by assumption; injection H as <- <-.
      unfold setup_prefix, copy_events; destruct (base_exists w); reflexivity.
Qed.

(** Every normal return of [setup] is the fresh start or the resume. *)
Lemma setup_success w args se s :
  setup w args init_st = (inr se, s) ->
  exists b,
    is_known_simulation (simulation args) = true /\ finish_ok w = true /\
    backend_of (lower (environment args)) = Some b /\
    ((String.eqb (checkpoint args) "" = true /\ se = 0%Z /\
      trace s = (setup_prefix w args
                 ++ [ENewBuffer b; ENewAgent (simulation args);
                     EDummyPolicy (join (output args) "base"); EPrepare])%list) \/
     (exists h k, String.eqb (checkpoint args) "" = false /\ history w = (h ++ [k])%list /\
      se = (k + 1)%Z /\
      trace s = (setup_prefix w args
                 ++ [ENewBuffer b; ENewAgent (simulation args);
                     ELoadState (join (output args) (checkpoint args));
                     ESetNFills (k + 1)%Z])%list)).
Proof.
  intros H.
  destruct (is_known_simulation (simulation args)) eqn:Hk;
    [|rewrite setup_unknown_simulation in H by exact Hk; discriminate].
  destruct (finish_ok w) eqn:Hf;
    [|rewrite setup_finish_rejected in H by assumption; discriminate].
  destruct (backend_of (lower (environment args))) as [b|] eqn:Hb;
    [|rewrite setup_unknown_backend in H by assumption; discriminate].
  exists b; split; [reflexivity|]; split; [reflexivity|]; split; [reflexivity|].
  destruct (String.eqb (checkpoint args) "") eqn:Hc.
  - rewrite (setup_fresh w args b) in H by assumption; injection H as <- <-.
    left; auto.
  - remember (history w) as hl eqn:Hh; symmetry in Hh.
    destruct hl as [|k h _] using rev_ind.
    + rewrite (setup_resume_no_history w args b) in H by assumption; discriminate.
    + rewrite (setup_resume w args b h k) in H by assumption; injection H as <- <-.
      right; exists h, k; auto.
Qed.

(** Where an event of a run with a successful [setup] comes from. *)
Lemma run_trace_origin w args se s x :
  setup w args init_st = (inr se, s) -> In x (run_trace w args) ->
  In x (trace s) \/ In x [ESetStart (end_time (base_env s)); ESetEnd (finish args); ELogTime]
  \/ is_loop_event x = true.
Proof.
  intros H Hin.
  destruct (main_run_shape w args se s H) as (done & rest & tl & E & E2 & Htl & _).
  rewrite E in Hin; clear E.
  repeat rewrite in_app_iff in Hin.
  destruct Hin as [Hin|[Hin|[Hin|Hin]]]; [left; exact Hin| | |].
  - simpl in Hin; destruct Hin as [<-|[<-|[<-|[]]]]; right; [left; left|left; right; left|right];
      reflexivity.
  - right; right; apply (loop_blocks_events w (output args) (iter args) se
                          (Z.to_nat (iter args - se))).
    rewrite <- E2; apply in_app_iff; left; exact Hin.
  - destruct Htl as [ -> | -> ]; [destruct Hin|]; destruct Hin as [ <- | [] ].
    right; left; right; right; left; reflexivity.
Qed.

Lemma loop_blocks_S w tp ep e m :
  loop_blocks w tp ep e (S m)
  = (episode_block w tp ep e ++ loop_blocks w tp ep (e + 1)%Z m)%list.
Proof. reflexivity. Qed.

Lemma filter_loop_fill_reset w tp ep : forall n e,
  (n = 0%nat \/ (e + Z.of_nat n)%Z = ep) ->
  filter is_fill_or_reset (loop_blocks w tp ep e n) = fill_reset_pattern n.
Proof.
  induction n as [|m IH]; intros e Hn; [reflexivity|].
  rewrite loop_blocks_S, filter_app.
  destruct Hn as [Hn|Hn]; [discriminate|].
  destruct m as [|m'].
  - assert (E : (e =? ep - 1)%Z = true) by (apply Z.eqb_eq; lia).
    unfold episode_block; rewrite E; reflexivity.
  - assert (E : (e =? ep - 1)%Z = false) by (apply Z.eqb_neq; lia).
    rewrite (IH (e + 1)%Z) by (right; lia).
    unfold episode_block; rewrite E; reflexivity.
Qed.

Lemma filter_loop_saves w tp ep : forall n e,
  filter is_save (loop_blocks w tp ep e n)
  = List.concat (map (save_pair tp) (zseq e n)).
Proof.
  induction n as [|m IH]; intros e; [reflexivity|].
  rewrite loop_blocks_S, filter_app, IH.
  unfold episode_block; destruct (negb (e =? ep - 1)%Z); reflexivity.
Qed.

Lemma setup_prefix_events w args x :
  In x (setup_prefix w args) ->
  match x with EMakedirs _ | ECopytree _ _ | ENewEnv _ | ESetEnvPath _ | ECheckFinish _ _ => True
  | _ => False end.
Proof.
  unfold setup_prefix, copy_events; destruct (base_exists w); simpl;
    intuition (subst; exact I).
Qed.

(** The loop either runs every episode of the range, all with data, or
    stops in the first episode [e + m] whose fill has no actions or rewards,
    right after reading its observations. *)
Lemma train_loop_cases w tp ep : forall n e s,
  (all_nonempty w e n = true /\
   train_loop w tp ep e n s = (inr tt, app_tr s (loop_blocks w tp ep e n))) \/
  (exists m, (m < n)%nat /\ all_nonempty w e m = true /\
     nonempty_obs (obs w (e + Z.of_nat m)) = false /\
     train_loop w tp ep e n s
     = (inl ZeroDivisionError,
        app_tr s (loop_blocks w tp ep e m ++ [ELogStart (e + Z.of_nat m); EFill; EReadObs]))).
Proof.
  induction n as [|n IH]; intros e s.
  - left; split; [reflexivity|]; cbn; rewrite app_tr_nil; reflexivity.
  - destruct (nonempty_obs (obs w e)) eqn:Hne.
    + rewrite episode_step_ok by exact Hne.
      destruct (IH (e + 1)%Z (app_tr s (episode_block w tp ep e)))
        as [[Ha Ht]|(m & Hm & Ha & Hn & Ht)].
      * left; split; [unfold all_nonempty in *; cbn [zseq forallb]; rewrite Hne; exact Ha|].
        rewrite Ht, app_tr_app, loop_blocks_S; reflexivity.
      * right; exists (S m); split; [lia|].
        split; [unfold all_nonempty in *; cbn [zseq forallb]; rewrite Hne; exact Ha|].
        replace (e + Z.of_nat (S m))%Z with (e + 1 + Z.of_nat m)%Z by lia.
        split; [exact Hn|].
        rewrite Ht, app_tr_app, loop_blocks_S, <- app_assoc; reflexivity.
    + right; exists 0%nat; split; [lia|]; split; [reflexivity|].
      rewrite Z.add_0_r; split; [exact Hne|].
      rewrite episode_step_fail by exact Hne; reflexivity.
Qed.

Lemma filter_loop_updates w tp ep : forall n e,
  filter is_start_or_update (loop_blocks w tp ep e n) = update_pairs w (zseq e n).
Proof.
  induction n as [|m IH]; intros e; [reflexivity|].
  rewrite loop_blocks_S, filter_app, IH.
  unfold episode_block; destruct (negb (e =? ep - 1)%Z); reflexivity.
Qed.

Lemma filter_none {A} (f : A -> bool) l :
  (forall x, In x l -> f x = false) -> filter f l = [].
Proof.
  induction l as [|a l IH]; intros H; simpl; [reflexivity|].
  rewrite (H a (or_introl eq_refl)); apply IH; intros x Hx; apply H; right; exact Hx.
Qed.

(** Every call [setup] makes, whatever its outcome, comes before the loop. *)
Lemma setup_trace_no_loop w args x :
  In x (trace (snd (setup w args init_st))) -> is_loop_event x = false.
Proof.
  assert (Hpre : forall l, In x (setup_prefix w args ++ l)%list ->
            (forall y, In y l -> is_loop_event y = false) -> is_loop_event x = false).
  { intros l Hx Hl; apply in_app_iff in Hx as [Hx|Hx]; [|auto].
    apply setup_prefix_events in Hx; destruct x; tauto. }
  assert (Hl : forall l y, In y l -> forallb (fun e => negb (is_loop_event e)) l = true ->
                is_loop_event y = false).
  { intros l y Hy Hf; rewrite forallb_forall in Hf; apply Hf in Hy.
    destruct (is_loop_event y); [discriminate|reflexivity]. }
  destruct (is_known_simulation (simulation args)) eqn:Hk;
    [|rewrite setup_unknown_simulation by exact Hk; intros [<-|[]]; reflexivity].
  destruct (finish_ok w) eqn:Hf;
    [|rewrite setup_finish_rejected by assumption; intros Hx;
      apply (Hpre []); [rewrite app_nil_r; exact Hx|intros y []]].
  destruct (backend_of (lower (environment args))) as [b|] eqn:Hb;
    [|rewrite setup_unknown_backend by assumption; intros Hx;
      apply (Hpre []); [rewrite app_nil_r; exact Hx|intros y []]].
  destruct (String.eqb (checkpoint args) "") eqn:Hc.
  - rewrite (setup_fresh w args b) by assumption; intros Hx; apply (Hpre _ Hx).
    intros y Hy; apply (Hl _ y Hy); reflexivity.
  - remember (history w) as hl eqn:Hh; symmetry in Hh.
    destruct hl as [|k h _] using rev_ind.
    + rewrite (setup_resume_no_history w args b) by assumption; intros Hx; apply (Hpre _ Hx).
      intros y Hy; apply (Hl _ y Hy); reflexivity.
    + rewrite (setup_resume w args b h k) by assumption; intros Hx; apply (Hpre _ Hx).
      intros y Hy; apply (Hl _ y Hy); reflexivity.
Qed.

(** ** Claims *)

(** C1 (resume): when a checkpoint path is given and the loaded history ends
    with episode [k], [setup] yields [starting_episode = k + 1], its last call
    is [buffer._n_fills = k + 1], and the run never calls [buffer.prepare()]
    nor [create_dummy_policy]. *)
Theorem resume_start_and_fill_counter w args b h k :
  is_known_simulation (simulation args) = true -> finish_ok w = true ->
  backend_of (lower (environment args)) = Some b ->
  checkpoint args <> "" -> history w = (h ++ [k])%list ->
  exists s pre,
    setup w args init_st = (inr (k + 1)%Z, s) /\
    trace s = (pre ++ [ESetNFills (k + 1)%Z])%list /\
    ~ In EPrepare (run_trace w args) /\
    (forall p, ~ In (EDummyPolicy p) (run_trace w args)).
Proof.
  intros Hk Hf Hb Hc Hh.
  apply String.eqb_neq in Hc.
  pose proof (setup_resume w args b h k Hk Hf Hb Hc Hh) as H.
  eexists; exists (setup_prefix w args
                   ++ [ENewBuffer b; ENewAgent (simulation args);
                       ELoadState (join (output args) (checkpoint args))])%list.
  split; [exact H|]; split; [cbn [trace]; rewrite <- app_assoc; reflexivity|].
  assert (Hno : forall x, In x (run_trace w args) ->
            match x with EPrepare | EDummyPolicy _ => False | _ => True end).
  { intros x Hx; destruct (run_trace_origin _ _ _ _ x H Hx) as [Hs|[Hs|Hs]].
    - cbn [trace] in Hs; apply in_app_iff in Hs as [Hs|Hs].
      + apply setup_prefix_events in Hs; destruct x; tauto.
      + simpl in Hs; intuition (subst; exact I).
    - simpl in Hs; intuition (subst; exact I).
    - destruct x; try exact I; discriminate. }
  split; [intros Hx; exact (Hno _ Hx)|intros p Hx; exact (Hno _ Hx)].
Qed.

Lemma resume_start_and_fill_counter_witness :
  exists s pre,
    setup world_ok args_resume init_st = (inr 4%Z, s) /\
    trace s = (pre ++ [ESetNFills 4%Z])%list /\
    ~ In EPrepare (run_trace world_ok args_resume) /\
    (forall p, ~ In (EDummyPolicy p) (run_trace world_ok args_resume)).
Proof.
  apply (resume_start_and_fill_counter world_ok args_resume LocalBackend [] 3%Z);
    try reflexivity; discriminate.
Defined.

(** C2, counterexample: with the unknown case ["foo"] the training directory
    is created by [makedirs] before the [ValueError] is raised. *)
Lemma unknown_simulation_after_makedirs :
  run_result world_ok args_foo = inl (ValueError (unknown_simulation_msg "foo")) /\
  run_trace world_ok args_foo = [EMakedirs "test_training"].
Proof. vm_compute; split; reflexivity. Qed.

(** C2 (amended): an unknown simulation name raises [ValueError] right after
    the training directory is created; that [makedirs] is the only call made:
    no base-case copy, environment, buffer, agent or trial. *)
Theorem unknown_simulation_error w args :
  is_known_simulation (simulation args) = false ->
  run_result w args = inl (ValueError (unknown_simulation_msg (simulation args))) /\
  run_trace w args = [EMakedirs (output args)].
Proof.
  intros Hk; unfold run_result, run_trace.
  rewrite (setup_failed_main _ _ _ _ (setup_unknown_simulation w args Hk)).
  split; reflexivity.
Qed.

Lemma unknown_simulation_error_witness :
  run_result world_ok args_foo = inl (ValueError (unknown_simulation_msg "foo")) /\
  run_trace world_ok args_foo = [EMakedirs "test_training"].
Proof. apply (unknown_simulation_error world_ok args_foo); reflexivity. Defined.

(** C3 (episode sequencing): after [setup] returns [starting_episode], the
    loop's calls are a prefix of the episode blocks for [e] = [starting_episode],
    ..., [episodes - 1] in turn (all of them when the run returns normally);
    each block is [fill], [observations], statistics, [update], [save_state]
    to [checkpoint_e.pt], [trace_policy], [update_policy], [save] to
    [policy_trace_e.pt], then [reset] unless [e] is the last episode. *)
Theorem episode_sequencing w args se s :
  setup w args init_st = (inr se, s) ->
  exists done rest tl,
    run_trace w args
    = (trace s ++ [ESetStart (end_time (base_env s)); ESetEnd (finish args); EReset]
       ++ done ++ tl)%list /\
    (done ++ rest)%list
    = List.concat (map (episode_block w (output args) (iter args))
                       (zseq se (Z.to_nat (iter args - se)))) /\
    (tl = [] \/ tl = [ELogTime]) /\
    (run_result w args = inr tt -> rest = []).
Proof.
  intros H.
  destruct (main_run_shape w args se s H) as (done & rest & tl & E1 & E2 & E3 & E4 & _).
  exists done, rest, tl; split; [exact E1|]; split; [exact E2|]; split; [exact E3|].
  intros Hr; apply (E4 Hr).
Qed.

Lemma episode_sequencing_witness :
  exists done rest tl,
    run_trace world_ok args_fresh
    = (trace setup_ok_fresh
       ++ [ESetStart (end_time (base_env setup_ok_fresh)); ESetEnd (finish args_fresh); EReset]
       ++ done ++ tl)%list /\
    (done ++ rest)%list
    = List.concat (map (episode_block world_ok (output args_fresh) (iter args_fresh))
                       (zseq 0 (Z.to_nat (iter args_fresh - 0)))) /\
    (tl = [] \/ tl = [ELogTime]) /\
    (run_result world_ok args_fresh = inr tt -> rest = []).
Proof. apply (episode_sequencing world_ok args_fresh 0 setup_ok_fresh); vm_compute; reflexivity. Defined.

(** C4 (total fill failure): if the fill of an episode of the loop's range
    returns no reward sequences, the run ends with [ZeroDivisionError] (raised
    by [print_statistics]), and in no run is [agent.update] called with an
    empty reward batch. *)
Theorem empty_fill_surfaces w args se s i :
  setup w args init_st = (inr se, s) ->
  In i (zseq se (Z.to_nat (iter args - se))) -> obs_rewards (obs w i) = [] ->
  run_result w args = inl ZeroDivisionError /\
  (forall st ac, ~ In (EUpdate st ac []) (run_trace w args)).
Proof.
  intros H Hi Hr.
  destruct (main_run_shape w args se s H)
    as (done & rest & tl & E1 & E2 & E3 & E4 & E5 & E6 & E7).
  split.
  - destruct (run_result w args) as [x|[]] eqn:R.
    + f_equal; apply E6; reflexivity.
    + pose proof (proj1 E5 eq_refl) as R'; clear R; rename R' into R.
      unfold all_nonempty in R; rewrite forallb_forall in R.
      specialize (R i Hi); unfold nonempty_obs in R; rewrite Hr in R; discriminate.
  - intros st ac Hin; rewrite E1 in Hin; repeat rewrite in_app_iff in Hin.
    destruct (setup_success w args se s H) as (b & _ & _ & _ & Hs).
    destruct Hin as [Hin|[Hin|[Hin|Hin]]].
    + destruct Hs as [(_ & _ & Ht)|(h & k & _ & _ & _ & Ht)]; rewrite Ht in Hin;
        apply in_app_iff in Hin as [Hin|Hin];
        try (apply setup_prefix_events in Hin; exact Hin);
        simpl in Hin; intuition discriminate.
    + simpl in Hin; intuition discriminate.
    + destruct (E7 st ac [] Hin) as (j & _ & Ho & Hn).
      unfold nonempty_obs in Hn; rewrite Ho in Hn; discriminate.
    + destruct E3 as [->| ->]; simpl in Hin; intuition discriminate.
Qed.

Lemma empty_fill_surfaces_witness :
  run_result world_empty args_fresh = inl ZeroDivisionError /\
  (forall st ac, ~ In (EUpdate st ac []) (run_trace world_empty args_fresh)).
Proof.
  apply (empty_fill_surfaces world_empty args_fresh 0 setup_empty_fresh 0).
  - vm_compute; reflexivity.
  - simpl; left; reflexivity.
  - reflexivity.
Defined.

(** C5, counterexample: with a known case whose finish time
    [check_finish_time] rejects, a backend name such as ["pbs"] is never
    looked at: the run stops with the finish-time failure, not with a
    [ValueError]. *)
Lemma unknown_backend_after_finish_check :
  backend_of (lower (environment args_pbs)) = None /\
  is_known_simulation (simulation args_pbs) = true /\
  run_result world_late args_pbs = inl FinishTimeRejected /\
  (forall msg, run_result world_late args_pbs <> inl (ValueError msg)).
Proof.
  split; [reflexivity|]; split; [reflexivity|]; split; [vm_compute; reflexivity|].
  intros msg; vm_compute; discriminate.
Qed.

(** C5 (amended): with a backend name that is neither ["local"] nor
    ["slurm"] (after lowering) the run fails before any buffer, agent or
    trial exists.  The failure is the [ValueError] of lines 138-139 unless an
    earlier check stopped the run first: an unknown case (a [ValueError]
    too), or a finish time refused by [check_finish_time] for a known case. *)
Theorem unknown_backend_fatal w args :
  backend_of (lower (environment args)) = None ->
  (exists x, run_result w args = inl x) /\
  (finish_ok w = true \/ is_known_simulation (simulation args) = false ->
     exists msg, run_result w args = inl (ValueError msg)) /\
  (is_known_simulation (simulation args) = true -> finish_ok w = false ->
     run_result w args = inl FinishTimeRejected) /\
  (forall x, In x (run_trace w args) -> after_backend_event x = false).
Proof.
  intros Hb; unfold run_result, run_trace.
  destruct (is_known_simulation (simulation args)) eqn:Hk.
  - destruct (finish_ok w) eqn:Hf.
    + rewrite (setup_failed_main _ _ _ _ (setup_unknown_backend w args Hk Hf Hb)); simpl.
      split; [eexists; reflexivity|]; split; [intros _; eexists; reflexivity|].
      split; [intros _ H; discriminate|].
      intros x Hx; apply setup_prefix_events in Hx; destruct x; tauto.
    + rewrite (setup_failed_main _ _ _ _ (setup_finish_rejected w args Hk Hf)); simpl.
      split; [eexists; reflexivity|]; split; [intros [Hc|Hc]; discriminate|].
      split; [intros _ _; reflexivity|].
      intros x Hx; apply setup_prefix_events in Hx; destruct x; tauto.
  - rewrite (setup_failed_main _ _ _ _ (setup_unknown_simulation w args Hk)); simpl.
    split; [eexists; reflexivity|]; split; [intros _; eexists; reflexivity|].
    split; [intros H; discriminate|].
    intros x [<-|[]]; reflexivity.
Qed.

Lemma unknown_backend_fatal_witness :
  (exists x, run_result world_ok args_pbs = inl x) /\
  (finish_ok world_ok = true \/ is_known_simulation (simulation args_pbs) = false ->
     exists msg, run_result world_ok args_pbs = inl (ValueError msg)) /\
  (is_known_simulation (simulation args_pbs) = true -> finish_ok world_ok = false ->
     run_result world_ok args_pbs = inl FinishTimeRejected) /\
  (forall x, In x (run_trace world_ok args_pbs) -> after_backend_event x = false).
Proof. apply (unknown_backend_fatal world_ok args_pbs); vm_compute; reflexivity. Defined.

(** C6 (reset between fills): projected on [fill()] and [reset()] calls, a
    run is a prefix of [reset; fill; reset; fill; ...; reset; fill], with one
    fill per episode of [range(starting_episode, episodes)] (the whole of it
    when the run returns normally): exactly one reset between two fills, and
    none after the final episode's fill. *)
Theorem reset_between_fills w args se s :
  setup w args init_st = (inr se, s) ->
  exists rest,
    (filter is_fill_or_reset (run_trace w args) ++ rest)%list
    = EReset :: fill_reset_pattern (Z.to_nat (iter args - se)) /\
    (run_result w args = inr tt -> rest = []).
Proof.
  intros H.
  destruct (main_run_shape w args se s H) as (done & rest & tl & E1 & E2 & E3 & E4 & _).
  exists (filter is_fill_or_reset rest).
  assert (Htl : filter is_fill_or_reset tl = []) by (destruct E3 as [-> | ->]; reflexivity).
  rewrite E1, !filter_app, (setup_trace_no_fill_reset _ _ _ _ H), Htl, app_nil_r.
  split.
  - simpl; f_equal; rewrite <- filter_app, E2.
    apply filter_loop_fill_reset; lia.
  - intros Hr; destruct (E4 Hr) as [-> _]; reflexivity.
Qed.

Lemma reset_between_fills_witness :
  exists rest,
    (filter is_fill_or_reset (run_trace world_ok args_fresh) ++ rest)%list
    = EReset :: fill_reset_pattern (Z.to_nat (iter args_fresh - 0)) /\
    (run_result world_ok args_fresh = inr tt -> rest = []).
Proof. apply (reset_between_fills world_ok args_fresh 0 setup_ok_fresh); vm_compute; reflexivity. Defined.

(** C7 (files per episode): a fresh run (no checkpoint) that returns
    normally saves exactly [checkpoint_e.pt] then [policy_trace_e.pt] in the
    output directory for [e = 0, 1, ..., episodes - 1], in that order. *)
Theorem fresh_run_checkpoints w args :
  checkpoint args = "" -> run_result w args = inr tt ->
  filter is_save (run_trace w args)
  = List.concat (map (save_pair (output args)) (zseq 0 (Z.to_nat (iter args)))).
Proof.
  intros Hc Hr.
  destruct (setup w args init_st) as [[x|se] s] eqn:Hs.
  - unfold run_result in Hr; rewrite (setup_failed_main _ _ _ _ Hs) in Hr; discriminate.
  - destruct (setup_success w args se s Hs) as (b & _ & _ & _ & [(_ & -> & Ht)|(h & k & Hc' & _)]).
    + destruct (main_run_shape w args 0 s Hs) as (done & rest & tl & E1 & E2 & _ & E4 & _).
      destruct (E4 Hr) as [-> ->]; rewrite app_nil_r in E2.
      rewrite E1, E2, !filter_app, filter_loop_saves, Ht, Z.sub_0_r.
      unfold setup_prefix, copy_events; destruct (base_exists w); simpl; rewrite app_nil_r;
        reflexivity.
    + rewrite Hc in Hc'; discriminate.
Qed.

Lemma fresh_run_checkpoints_witness :
  filter is_save (run_trace world_ok args_fresh)
  = [ESaveState "test_training/checkpoint_0.pt"; ESavePolicy "test_training/policy_trace_0.pt";
     ESaveState "test_training/checkpoint_1.pt"; ESavePolicy "test_training/policy_trace_1.pt"].
Proof.
  rewrite (fresh_run_checkpoints world_ok args_fresh); [|reflexivity|vm_compute; reflexivity].
  vm_compute; reflexivity.
Defined.

(** C8, counterexample: [print_statistics] does more than log. On a fill
    without data it raises [ZeroDivisionError]; a fresh run of two episodes
    then stops in episode 0 without calling [agent.update]. *)
Lemma print_statistics_can_abort :
  print_statistics [] [] init_st = (inl ZeroDivisionError, init_st) /\
  run_result world_empty args_fresh = inl ZeroDivisionError /\
  (forall st ac rw, ~ In (EUpdate st ac rw) (run_trace world_empty args_fresh)).
Proof.
  split; [reflexivity|]; split; [vm_compute; reflexivity|].
  intros st ac rw; vm_compute; intuition discriminate.
Qed.

(** C8 (amended): [agent.update] of episode [e] gets exactly the
    [(states, actions, rewards)] that [buffer.observations] gave in episode
    [e]: projected on the ["Start of episode"] logs and the [update] calls, a
    run is [start e; update (obs e)] for each episode of the range when it
    returns normally, and otherwise the same for the episodes before the
    first one whose fill has no actions or rewards, followed by the start of
    that episode only: its [print_statistics] raises [ZeroDivisionError]
    before its [agent.update].  [print_statistics] only logs when [actions]
    and [rewards] are both non-empty, and raises otherwise. *)
Theorem update_gets_observations w args se s :
  setup w args init_st = (inr se, s) ->
  ((run_result w args = inr tt /\
    all_nonempty w se (Z.to_nat (iter args - se)) = true /\
    filter is_start_or_update (run_trace w args)
    = update_pairs w (zseq se (Z.to_nat (iter args - se)))) \/
   (exists m, (m < Z.to_nat (iter args - se))%nat /\
      run_result w args = inl ZeroDivisionError /\
      all_nonempty w se m = true /\
      nonempty_obs (obs w (se + Z.of_nat m)) = false /\
      filter is_start_or_update (run_trace w args)
      = (update_pairs w (zseq se m) ++ [ELogStart (se + Z.of_nat m)])%list)) /\
  (forall ac rw s', ac <> [] -> rw <> [] ->
     print_statistics ac rw s' = (inr tt, app_tr s' [ELogStats])) /\
  (forall ac rw s', ac = [] \/ rw = [] ->
     print_statistics ac rw s' = (inl ZeroDivisionError, s')) /\
  (forall i, In i (zseq se (Z.to_nat (iter args - se))) -> nonempty_obs (obs w i) = false ->
     run_result w args = inl ZeroDivisionError).
Proof.
  intros H.
  assert (Hs0 : filter is_start_or_update (trace s) = []).
  { apply filter_none; intros x Hx.
    assert (Hl : is_loop_event x = false)
      by (apply (setup_trace_no_loop w args); rewrite H; exact Hx).
    destruct x; simpl in *; congruence. }
  assert (Pok : forall ac rw s', ac <> [] -> rw <> [] ->
             print_statistics ac rw s' = (inr tt, app_tr s' [ELogStats])).
  { intros ac rw s' Ha Hr; unfold print_statistics.
    destruct rw; [contradiction|]; destruct ac; [contradiction|]; reflexivity. }
  assert (Pbad : forall ac rw s', ac = [] \/ rw = [] ->
             print_statistics ac rw s' = (inl ZeroDivisionError, s')).
  { intros ac rw s' [->| ->]; unfold print_statistics;
      [destruct (length rw =? 0)%nat|]; reflexivity. }
  unfold run_result, run_trace; rewrite (main_after_setup _ _ _ _ H), bind_loop_time.
  destruct (train_loop_cases w (output args) (iter args) (Z.to_nat (iter args - se)) se
              (after_handoff s (finish args))) as [[Ha Ht]|(m & Hm & Ha & Hn & Ht)];
    rewrite Ht; unfold after_handoff, app_tr; cbn [fst snd trace].
  - split; [left; split; [reflexivity|]; split; [exact Ha|]|].
    + rewrite !filter_app, Hs0, filter_loop_updates; simpl; rewrite ?app_nil_r; reflexivity.
    + split; [exact Pok|]; split; [exact Pbad|].
      intros i Hi Hne; unfold all_nonempty in Ha; rewrite forallb_forall in Ha.
      rewrite (Ha i Hi) in Hne; discriminate.
  - split; [right; exists m; split; [exact Hm|]; split; [reflexivity|];
            split; [exact Ha|]; split; [exact Hn|]|].
    + rewrite !filter_app, Hs0, filter_loop_updates; simpl; rewrite ?app_nil_r; reflexivity.
    + split; [exact Pok|]; split; [exact Pbad|]; intros _ _ _; reflexivity.
Qed.

Lemma update_gets_observations_witness :
  ((run_result world_empty args_fresh = inr tt /\
    all_nonempty world_empty 0 (Z.to_nat (iter args_fresh - 0)) = true /\
    filter is_start_or_update (run_trace world_empty args_fresh)
    = update_pairs world_empty (zseq 0 (Z.to_nat (iter args_fresh - 0)))) \/
   (exists m, (m < Z.to_nat (iter args_fresh - 0))%nat /\
      run_result world_empty args_fresh = inl ZeroDivisionError /\
      all_nonempty world_empty 0 m = true /\
      nonempty_obs (obs world_empty (0 + Z.of_nat m)) = false /\
      filter is_start_or_update (run_trace world_empty args_fresh)
      = (update_pairs world_empty (zseq 0 m) ++ [ELogStart (0 + Z.of_nat m)])%list)) /\
  (forall ac rw s', ac <> [] -> rw <> [] ->
     print_statistics ac rw s' = (inr tt, app_tr s' [ELogStats])) /\
  (forall ac rw s', ac = [] \/ rw = [] ->
     print_statistics ac rw s' = (inl ZeroDivisionError, s')) /\
  (forall i, In i (zseq 0 (Z.to_nat (iter args_fresh - 0))) ->
     nonempty_obs (obs world_empty i) = false ->
     run_result world_empty args_fresh = inl ZeroDivisionError).
Proof.
  apply (update_gets_observations world_empty args_fresh 0 setup_empty_fresh).
  vm_compute; reflexivity.
Defined.

(** C9 (time window hand-off): whatever [setup] did (fresh or resumed), and
    before any [reset()] or [fill()], the run sets the base environment's
    [start_time] to its current [end_time], then its [end_time] to the
    finish argument. *)
Theorem time_window_handoff w args se s :
  setup w args init_st = (inr se, s) ->
  filter is_fill_or_reset (trace s) = [] /\
  handoff (finish args) s
  = (inr tt, mkSt (trace s ++ [ESetStart (end_time (base_env s)); ESetEnd (finish args)])%list
                  (mkTimes (end_time (base_env s)) (finish args))) /\
  exists tl,
    run_trace w args
    = (trace s ++ [ESetStart (end_time (base_env s)); ESetEnd (finish args); EReset] ++ tl)%list.
Proof.
  intros H; split; [exact (setup_trace_no_fill_reset _ _ _ _ H)|]; split.
  - destruct s as [tr [st en]]; unfold handoff; cbn; unfold put_env, app_tr; cbn.
    rewrite <- app_assoc; reflexivity.
  - destruct (main_run_shape w args se s H) as (done & rest & tl & E1 & _).
    exists (done ++ tl)%list; exact E1.
Qed.

Lemma time_window_handoff_witness :
  filter is_fill_or_reset (trace setup_ok_fresh) = [] /\
  handoff (finish args_fresh) setup_ok_fresh
  = (inr tt, mkSt (trace setup_ok_fresh
                   ++ [ESetStart (end_time (base_env setup_ok_fresh)); ESetEnd (finish args_fresh)])%list
                  (mkTimes (end_time (base_env setup_ok_fresh)) (finish args_fresh))) /\
  exists tl,
    run_trace world_ok args_fresh
    = (trace setup_ok_fresh
       ++ [ESetStart (end_time (base_env setup_ok_fresh)); ESetEnd (finish args_fresh); EReset]
       ++ tl)%list.
Proof. apply (time_window_handoff world_ok args_fresh 0); vm_compute; reflexivity. Defined.

(** C10 (case-insensitive backend): the backend is chosen from the lowered
    argument, so whenever [lower] of it is ["local"] or ["slurm"] (as for
    ["Local"], ["LOCAL"], ["Slurm"]), the run builds that buffer and never
    raises a [ValueError] (given a known case whose finish time is accepted). *)
Theorem backend_case_insensitive w args b :
  is_known_simulation (simulation args) = true -> finish_ok w = true ->
  backend_of (lower (environment args)) = Some b ->
  In (ENewBuffer b) (run_trace w args) /\
  (forall msg, run_result w args <> inl (ValueError msg)).
Proof.
  intros Hk Hf Hb.
  assert (Hin : forall l, In (ENewBuffer b) ((setup_prefix w args ++ ENewBuffer b :: l)%list)).
  { intros l; apply in_app_iff; right; left; reflexivity. }
  destruct (String.eqb (checkpoint args) "") eqn:Hc.
  - pose proof (setup_fresh w args b Hk Hf Hb Hc) as H.
    destruct (main_run_shape w args 0 _ H) as (done & rest & tl & E1 & _ & _ & _ & _ & E6 & _).
    split.
    + rewrite E1; apply in_app_iff; left; apply Hin.
    + intros msg Hr; apply E6 in Hr; discriminate.
  - remember (history w) as hl eqn:Hh; symmetry in Hh.
    destruct hl as [|k h _] using rev_ind.
    + pose proof (setup_resume_no_history w args b Hk Hf Hb Hc Hh) as H.
      unfold run_trace, run_result; rewrite (setup_failed_main _ _ _ _ H).
      split; [apply Hin|discriminate].
    + pose proof (setup_resume w args b h k Hk Hf Hb Hc Hh) as H.
      destruct (main_run_shape w args _ _ H) as (done & rest & tl & E1 & _ & _ & _ & _ & E6 & _).
      split.
      * rewrite E1; apply in_app_iff; left; apply Hin.
      * intros msg Hr; apply E6 in Hr; discriminate.
Qed.

Lemma backend_case_insensitive_witness :
  In (ENewBuffer LocalBackend) (run_trace world_ok args_upper) /\
  (forall msg, run_result world_ok args_upper <> inl (ValueError msg)).
Proof. apply (backend_case_insensitive world_ok args_upper LocalBackend); vm_compute; reflexivity. Defined.

Example backend_of_mixed_case :
  backend_of (lower "Local") = Some LocalBackend /\
  backend_of (lower "LOCAL") = Some LocalBackend /\
  backend_of (lower "Slurm") = Some SlurmBackend /\
  backend_of (lower "SLURM") = Some SlurmBackend.
Proof. vm_compute; repeat split. Qed.

(** ** Further properties of the driver *)

Lemma str_app_assoc (a b c : string) : ((a ++ b) ++ c) = (a ++ (b ++ c)).
Proof. induction a as [|x a IH]; simpl; [reflexivity|now rewrite IH]. Qed.

Lemma str_app_nil_r (a : string) : (a ++ "") = a.
Proof. induction a as [|x a IH]; simpl; [reflexivity|now rewrite IH]. Qed.

Lemma str_app_inv_l (p a b : string) : (p ++ a) = (p ++ b) -> a = b.
Proof. induction p as [|x p IH]; simpl; [auto|intros H; injection H; auto]. Qed.

Lemma list_ascii_app (a b : string) :
  list_ascii_of_string (a ++ b) = (list_ascii_of_string a ++ list_ascii_of_string b)%list.
Proof. induction a as [|x a IH]; simpl; [reflexivity|now rewrite IH]. Qed.

Lemma str_app_inv_r (a b p : string) : (a ++ p) = (b ++ p) -> a = b.
Proof.
  intros H; apply (f_equal list_ascii_of_string) in H; rewrite !list_ascii_app in H.
  apply app_inv_tail in H.
  rewrite <- (string_of_list_ascii_of_string a), <- (string_of_list_ascii_of_string b), H.
  reflexivity.
Qed.

Lemma dval_app v (a b : string) : dval v (a ++ b) = dval (dval v a) b.
Proof. revert v; induction a as [|x a IH]; intros v; simpl; auto. Qed.

Lemma digit_char_val d : (d < 10)%nat ->
  nat_of_ascii (ascii_of_nat (48 + d)) = (48 + d)%nat.
Proof. intros Hd; apply nat_ascii_embedding; lia. Qed.

(** [digits] puts the decimal numeral of [n] in front of [acc]. *)
Lemma digits_numeral : forall f n acc, (n < f)%nat ->
  exists pre, digits f n acc = (pre ++ acc) /\ dval 0 pre = n /\
              pre <> "" /\ all_digits pre = true.
Proof.
  induction f as [|f IH]; intros n acc Hn; [lia|].
  cbn [digits].
  assert (Hd : (n mod 10 < 10)%nat) by (apply Nat.mod_upper_bound; lia).
  remember (ascii_of_nat (48 + n mod 10)) as c eqn:Hc.
  assert (Hcv : nat_of_ascii c = (48 + n mod 10)%nat) by (subst c; apply digit_char_val, Hd).
  assert (Hdig : is_digit c = true).
  { unfold is_digit; rewrite Hcv.
    apply andb_true_iff; split; [apply Nat.leb_le|apply Nat.ltb_lt]; lia. }
  clear Hc.
  destruct (n <? 10)%nat eqn:Hlt.
  - apply Nat.ltb_lt in Hlt.
    exists (String c ""); split; [reflexivity|].
    split; [|split; [discriminate|cbn [all_digits]; rewrite Hdig; reflexivity]].
    cbn [dval]; rewrite Hcv, Nat.mod_small by exact Hlt; lia.
  - apply Nat.ltb_ge in Hlt.
    destruct (IH (n / 10)%nat (String c acc)) as (pre & E & V & Ne & D).
    { apply Nat.lt_le_trans with n; [apply Nat.div_lt; lia|lia]. }
    exists (pre ++ String c "").
    split; [rewrite E, str_app_assoc; reflexivity|].
    split; [|split].
    + rewrite dval_app, V; cbn [dval]; rewrite Hcv.
      pose proof (Nat.div_mod n 10) as Hm; lia.
    + destruct pre; [contradiction|discriminate].
    + clear -D Hdig; induction pre as [|x pre IHp]; cbn [all_digits append] in *.
      * rewrite Hdig; reflexivity.
      * apply andb_true_iff in D as [D1 D2]; rewrite D1, (IHp D2); reflexivity.
Qed.

Lemma read_str_Z z : read_Z (str_Z z) = z.
Proof.
  destruct z as [|p|p].
  - reflexivity.
  - change (str_Z (Z.pos p)) with (digits (S (Pos.to_nat p)) (Pos.to_nat p) "").
    destruct (digits_numeral (S (Pos.to_nat p)) (Pos.to_nat p) "")
      as (pre & E & V & Ne & D); [lia|].
    rewrite E, str_app_nil_r.
    destruct pre as [|c r]; [contradiction|].
    cbn [all_digits] in D; apply andb_true_iff in D as [Dc _].
    unfold read_Z; replace (Ascii.eqb c "-"%char) with false.
    + rewrite V; lia.
    + symmetry; apply Ascii.eqb_neq; intros ->; discriminate.
  - change (str_Z (Z.neg p)) with (String "-" (digits (S (Pos.to_nat p)) (Pos.to_nat p) "")).
    destruct (digits_numeral (S (Pos.to_nat p)) (Pos.to_nat p) "")
      as (pre & E & V & _ & _); [lia|].
    unfold read_Z; rewrite E, str_app_nil_r, V.
    change (Ascii.eqb "-" "-") with true; cbv iota; rewrite positive_nat_Z; reflexivity.
Qed.

Lemma str_Z_inj z1 z2 : str_Z z1 = str_Z z2 -> z1 = z2.
Proof. intros H; rewrite <- (read_str_Z z1), <- (read_str_Z z2), H; reflexivity. Qed.

Lemma join_inj tp a b :
  String.prefix "/" a = false -> String.prefix "/" b = false ->
  join tp a = join tp b -> a = b.
Proof.
  intros Ha Hb; unfold join; rewrite Ha, Hb.
  destruct (String.eqb tp ""); [auto|].
  destruct (ends_with_slash tp); intros H; apply str_app_inv_l in H; [exact H|].
  injection H; auto.
Qed.

Lemma checkpoint_name_inj e1 e2 : checkpoint_name e1 = checkpoint_name e2 -> e1 = e2.
Proof.
  unfold checkpoint_name; intros H.
  apply str_app_inv_l, str_app_inv_r, str_Z_inj in H; exact H.
Qed.

Lemma policy_name_inj e1 e2 : policy_name e1 = policy_name e2 -> e1 = e2.
Proof.
  unfold policy_name; intros H.
  apply str_app_inv_l, str_app_inv_r, str_Z_inj in H; exact H.
Qed.

Lemma zseq_range e n i : In i (zseq e n) -> (e <= i < e + Z.of_nat n)%Z.
Proof.
  revert e; induction n as [|n IH]; intros e H; simpl in H; [contradiction|].
  destruct H as [<-|H]; [lia|apply IH in H; lia].
Qed.

Lemma zseq_nodup e n : NoDup (zseq e n).
Proof.
  revert e; induction n as [|n IH]; intros e; simpl; constructor; auto.
  intros H; apply zseq_range in H; lia.
Qed.

Lemma checkpoint_policy_names_differ e1 e2 : checkpoint_name e1 <> policy_name e2.
Proof. unfold checkpoint_name, policy_name; simpl; discriminate. Qed.

Lemma save_paths_nodup tp l :
  NoDup l -> NoDup (map saved_path (List.concat (map (save_pair tp) l))).
Proof.
  induction 1 as [|x l Hx Hl IH]; simpl; [constructor|].
  assert (Hin : forall p, In p (map saved_path (List.concat (map (save_pair tp) l))) ->
                 p <> join tp (checkpoint_name x) /\ p <> join tp (policy_name x)).
  { intros p Hp; apply in_map_iff in Hp as (ev & <- & Hev).
    apply in_concat in Hev as (l' & Hl' & Hev); apply in_map_iff in Hl' as (y & <- & Hy).
    simpl in Hev; destruct Hev as [<-|[<-|[]]]; simpl; split; intros E;
      apply join_inj in E; try reflexivity.
    - apply checkpoint_name_inj in E; subst; contradiction.
    - exact (checkpoint_policy_names_differ _ _ E).
    - exact (checkpoint_policy_names_differ _ _ (eq_sym E)).
    - apply policy_name_inj in E; subst; contradiction. }
  constructor; [|constructor].
  - intros [E|E]; [|exact (proj1 (Hin _ E) eq_refl)].
    apply join_inj in E; try reflexivity.
    exact (checkpoint_policy_names_differ _ _ (eq_sym E)).
  - intros E; exact (proj2 (Hin _ E) eq_refl).
  - exact IH.
Qed.



(** X: no file is written twice in a run: the paths given to
    [agent.save_state] and [current_policy.save] are pairwise distinct, a
    checkpoint path never being a policy path. *)
Theorem saved_paths_distinct w args :
  NoDup (map saved_path (filter is_save (run_trace w args))).
Proof.
  assert (Hs0 : forall l, (forall x, In x l -> is_loop_event x = false) -> filter is_save l = []).
  { intros l H; apply filter_none; intros x Hx; specialize (H x Hx); destruct x; auto. }
  destruct (setup w args init_st) as [[x|se] s] eqn:Hs.
  - unfold run_trace; rewrite (setup_failed_main _ _ _ _ Hs).
    rewrite Hs0; [constructor|].
    intros y Hy; apply (setup_trace_no_loop w args); rewrite Hs; exact Hy.
  - destruct (main_run_shape w args se s Hs) as (done & rest & tl & E1 & E2 & E3 & _).
    rewrite E1, !filter_app, Hs0.
    2:{ intros y Hy; apply (setup_trace_no_loop w args); rewrite Hs; exact Hy. }
    assert (Htl : filter is_save tl = []) by (destruct E3 as [-> | ->]; reflexivity).
    rewrite Htl, app_nil_r; simpl.
    apply (NoDup_app_remove_r _ (map saved_path (filter is_save rest))).
    rewrite <- map_app, <- filter_app, E2, filter_loop_saves.
    apply save_paths_nodup, zseq_nodup.
Qed.

(** X: [DEFAULT_CONFIG] has an entry for exactly the simulation names that
    pass the check of line 112, so [DEFAULT_CONFIG[simulation]] (line 143)
    never raises [KeyError]. *)
Theorem default_config_covers_environments sim :
  is_known_simulation sim = true <-> exists c, lookup_config sim DEFAULT_CONFIG = Some c.
Proof.
  unfold is_known_simulation, SIMULATION_ENVIRONMENTS, DEFAULT_CONFIG; cbn [existsb lookup_config].
  destruct (String.eqb sim "rotatingCylinder2D"); [split; [eauto|reflexivity]|].
  destruct (String.eqb sim "rotatingPinball2D"); [split; [eauto|reflexivity]|].
  split; [discriminate|intros [c Hc]; discriminate].
Qed.

Lemma run_failed_setup w args x s :
  setup w args init_st = (inl x, s) -> run_result w args = inl x /\ run_trace w args = trace s.
Proof. intros H; unfold run_result, run_trace; rewrite (setup_failed_main _ _ _ _ H); split; reflexivity. Qed.

(** X: a run that returns normally had a known case, an accepted finish
    time, a backend that lowers to local or slurm, a non-empty episode
    history if it resumed, and actions and rewards in every fill of the
    episodes it ran. *)
Theorem run_ok_requires w args :
  run_result w args = inr tt ->
  is_known_simulation (simulation args) = true /\ finish_ok w = true /\
  backend_of (lower (environment args)) <> None /\
  (checkpoint args = "" \/ history w <> []) /\
  all_nonempty w (starting_episode_of w args)
    (Z.to_nat (iter args - starting_episode_of w args)) = true.
Proof.
  intros Hr.
  destruct (setup w args init_st) as [[x|se] s] eqn:Hs.
  - rewrite (proj1 (run_failed_setup _ _ _ _ Hs)) in Hr; discriminate.
  - destruct (main_run_shape w args se s Hs) as (_ & _ & _ & _ & _ & _ & _ & E5 & _).
    apply E5 in Hr.
    destruct (setup_success w args se s Hs)
      as (b & Hk & Hf & Hb & [(Hc & -> & _)|(h & k & Hc & Hh & -> & _)]).
    all: split; [exact Hk|]; split; [exact Hf|]; split; [rewrite Hb; discriminate|].
    all: unfold starting_episode_of; rewrite Hc.
    + split; [left; apply String.eqb_eq, Hc|exact Hr].
    + rewrite Hh, rev_unit; split; [|exact Hr].
      right; intros E; apply app_eq_nil in E as [_ E]; discriminate.
Qed.

Lemma run_ok_requires_witness :
  is_known_simulation (simulation args_fresh) = true /\ finish_ok world_ok = true /\
  backend_of (lower (environment args_fresh)) <> None /\
  (checkpoint args_fresh = "" \/ history world_ok <> []) /\
  all_nonempty world_ok (starting_episode_of world_ok args_fresh)
    (Z.to_nat (iter args_fresh - starting_episode_of world_ok args_fresh)) = true.
Proof. apply (run_ok_requires world_ok args_fresh); vm_compute; reflexivity. Defined.


(** X: resuming with a checkpoint whose episode history is empty raises
    [IndexError] at [history["episode"][-1]], after the buffer and agent are
    built and the state loaded, and before any reset or fill. *)
Theorem resume_without_history w args b :
  is_known_simulation (simulation args) = true -> finish_ok w = true ->
  backend_of (lower (environment args)) = Some b ->
  checkpoint args <> "" -> history w = [] ->
  run_result w args = inl IndexError /\
  run_trace w args
  = (setup_prefix w args
     ++ [ENewBuffer b; ENewAgent (simulation args);
         ELoadState (join (output args) (checkpoint args))])%list.
Proof.
  intros Hk Hf Hb Hc Hh; apply String.eqb_neq in Hc.
  exact (run_failed_setup _ _ _ _ (setup_resume_no_history w args b Hk Hf Hb Hc Hh)).
Qed.

Lemma resume_without_history_witness :
  run_result world_no_history args_resume = inl IndexError /\
  run_trace world_no_history args_resume
  = (setup_prefix world_no_history args_resume
     ++ [ENewBuffer LocalBackend; ENewAgent (simulation args_resume);
         ELoadState (join (output args_resume) (checkpoint args_resume))])%list.
Proof.
  apply (resume_without_history world_no_history args_resume LocalBackend);
    try reflexivity; discriminate.
Defined.

(** X: when [starting_episode >= episodes] (e.g. resuming from the last
    episode's checkpoint) the loop body never runs: after the time hand-off
    and the one [reset()] the run only logs the training time and returns. *)
Theorem nothing_left_to_train w args se s :
  setup w args init_st = (inr se, s) -> (iter args <= se)%Z ->
  main w args init_st
  = (inr tt, mkSt (trace s ++ [ESetStart (end_time (base_env s)); ESetEnd (finish args);
                               EReset; ELogTime])%list
                  (mkTimes (end_time (base_env s)) (finish args))).
Proof.
  intros H Hle; rewrite (main_after_setup _ _ _ _ H).
  replace (Z.to_nat (iter args - se)) with 0%nat by lia.
  unfold after_handoff; cbn; unfold app_tr; cbn.
  unfold emit, app_tr; cbn; rewrite <- app_assoc; reflexivity.

Qed.

Definition setup_done : St := snd (setup world_ok args_done init_st).

Lemma nothing_left_to_train_witness :
  main world_ok args_done init_st
  = (inr tt, mkSt (trace setup_done
                   ++ [ESetStart (end_time (base_env setup_done)); ESetEnd (finish args_done);
                       EReset; ELogTime])%list
                  (mkTimes (end_time (base_env setup_done)) (finish args_done))).
Proof.
  apply (nothing_left_to_train world_ok args_done 4); [vm_compute; reflexivity|].
  vm_compute; discriminate.
Defined.

(** X: a resumed run from a history ending in episode [k] that returns
    normally saves exactly [checkpoint_e.pt] and [policy_trace_e.pt] for
    [e = k + 1, ..., episodes - 1], in that order: episodes up to [k] are
    not retrained or overwritten. *)
Theorem resumed_run_files w args h k :
  checkpoint args <> "" -> history w = (h ++ [k])%list -> run_result w args = inr tt ->
  filter is_save (run_trace w args)
  = List.concat (map (save_pair (output args)) (zseq (k + 1) (Z.to_nat (iter args - (k + 1))))).
Proof.
  intros Hc Hh Hr.
  destruct (setup w args init_st) as [[x|se] s] eqn:Hs.
  - unfold run_result in Hr; rewrite (setup_failed_main _ _ _ _ Hs) in Hr; discriminate.
  - destruct (setup_success w args se s Hs)
      as (b & _ & _ & _ & [(Hc' & _)|(h' & k' & _ & Hh' & -> & Ht)]).
    + apply String.eqb_eq in Hc'; contradiction.
    + rewrite Hh in Hh'; apply app_inj_tail in Hh' as [_ <-].
      destruct (main_run_shape w args (k + 1) s Hs) as (done & rest & tl & E1 & E2 & _ & E4 & _).
      destruct (E4 Hr) as [-> ->]; rewrite app_nil_r in E2.
      rewrite E1, E2, !filter_app, filter_loop_saves, Ht.
      unfold setup_prefix, copy_events; destruct (base_exists w); simpl; rewrite app_nil_r;
        reflexivity.
Qed.

Lemma resumed_run_files_witness :
  filter is_save (run_trace world_ok args_resume)
  = [ESaveState "test_training/checkpoint_4.pt"; ESavePolicy "test_training/policy_trace_4.pt";
     ESaveState "test_training/checkpoint_5.pt"; ESavePolicy "test_training/policy_trace_5.pt"].
Proof.
  rewrite (resumed_run_files world_ok args_resume [] 3);
    [|discriminate|reflexivity|vm_compute; reflexivity].
  vm_compute; reflexivity.
Defined.

(** X: a fresh run writes the dummy policy into [<output>/base] and calls
    [prepare] once, both after the buffer and agent are built and before
    the time hand-off; [start_time] is then the [end_time] left by
    [prepare], and nothing after the first [reset()] is a configuration,
    construction or preparation call. *)
Theorem fresh_start_prepares_once w args b :
  is_known_simulation (simulation args) = true -> finish_ok w = true ->
  backend_of (lower (environment args)) = Some b -> checkpoint args = "" ->
  exists rest,
    run_trace w args
    = (setup_prefix w args
       ++ [ENewBuffer b; ENewAgent (simulation args); EDummyPolicy (join (output args) "base");
           EPrepare; ESetStart (end_time (prepare_effect w (env_defaults w (simulation args))));
           ESetEnd (finish args); EReset] ++ rest)%list /\
    (forall x, In x rest -> is_loop_event x = true \/ x = ELogTime).
Proof.
  intros Hk Hf Hb Hc; apply String.eqb_eq in Hc.
  destruct (main_run_shape w args 0 _ (setup_fresh w args b Hk Hf Hb Hc))
    as (done & rest & tl & E1 & E2 & E3 & _).
  exists (done ++ tl)%list; split.
  - rewrite E1; cbn [trace base_env]; rewrite <- !app_assoc; reflexivity.
  - intros x Hx; apply in_app_iff in Hx as [Hx|Hx].
    + left; apply (loop_blocks_events w (output args) (iter args) 0 (Z.to_nat (iter args - 0))).
      rewrite <- E2; apply in_app_iff; left; exact Hx.
    + right; destruct E3 as [ -> | -> ]; [destruct Hx|destruct Hx as [ <- | [] ]; reflexivity].
Qed.

Lemma fresh_start_prepares_once_witness :
  exists rest,
    run_trace world_ok args_fresh
    = (setup_prefix world_ok args_fresh
       ++ [ENewBuffer LocalBackend; ENewAgent "rotatingCylinder2D";
           EDummyPolicy "test_training/base"; EPrepare; ESetStart 4; ESetEnd 8; EReset]
       ++ rest)%list /\
    (forall x, In x rest -> is_loop_event x = true \/ x = ELogTime).
Proof.
  exact (fresh_start_prepares_once world_ok args_fresh LocalBackend
           eq_refl eq_refl eq_refl eq_refl).
Defined.

Lemma loop_event_not_config x : is_loop_event x = true -> is_config_event x = false.
Proof. destruct x; intros H; try reflexivity; simpl in H; discriminate. Qed.

(** For a known case, the run starts with the configuration calls of
    lines 108-124 and makes none of them later. *)
Lemma run_trace_known_prefix w args :
  is_known_simulation (simulation args) = true ->
  exists rest, run_trace w args = (setup_prefix w args ++ rest)%list /\
    (forall x, In x rest -> is_config_event x = false).
Proof.
  intros Hk.
  assert (Hgood : forall se s l, setup w args init_st = (inr se, s) ->
            trace s = (setup_prefix w args ++ l)%list ->
            (forall y, In y l -> is_config_event y = false) ->
            exists rest, run_trace w args = (setup_prefix w args ++ rest)%list /\
              (forall x, In x rest -> is_config_event x = false)).
  { intros se s l Hs Ht Hl.
    destruct (main_run_shape w args se s Hs) as (done & rest & tl & E1 & E2 & E3 & _).
    eexists; split; [rewrite E1, Ht, <- app_assoc; reflexivity|].
    intros x Hx; rewrite !in_app_iff in Hx.
    destruct Hx as [Hx|[Hx|[Hx|Hx]]]; [auto| | |].
    - simpl in Hx; intuition (subst; reflexivity).
    - apply loop_event_not_config,
        (loop_blocks_events w (output args) (iter args) se (Z.to_nat (iter args - se))).
      rewrite <- E2; apply in_app_iff; left; exact Hx.
    - destruct E3 as [ -> | -> ]; simpl in Hx; intuition (subst; reflexivity). }
  destruct (finish_ok w) eqn:Hf.
  2:{ exists []; rewrite app_nil_r; split; [|intros x []].
      exact (proj2 (run_failed_setup _ _ _ _ (setup_finish_rejected w args Hk Hf))). }
  destruct (backend_of (lower (environment args))) as [b|] eqn:Hb.
  2:{ exists []; rewrite app_nil_r; split; [|intros x []].
      exact (proj2 (run_failed_setup _ _ _ _ (setup_unknown_backend w args Hk Hf Hb))). }
  destruct (String.eqb (checkpoint args) "") eqn:Hc.
  - apply (Hgood _ _ _ (setup_fresh w args b Hk Hf Hb Hc) eq_refl).
    intros y Hy; simpl in Hy; intuition (subst; reflexivity).
  - remember (history w) as hl eqn:Hh; symmetry in Hh.
    destruct hl as [|k h _] using rev_ind.
    + eexists; split.
      * exact (proj2 (run_failed_setup _ _ _ _ (setup_resume_no_history w args b Hk Hf Hb Hc Hh))).
      * intros y Hy; simpl in Hy; intuition (subst; reflexivity).
    + apply (Hgood _ _ _ (setup_resume w args b h k Hk Hf Hb Hc Hh) eq_refl).
      intros y Hy; simpl in Hy; intuition (subst; reflexivity).
Qed.

(** X: [shutil.copytree] is called only when the case is known and
    [<output>/base] does not exist yet, and then only from
    [<DRL_BASE>/openfoam/test_cases/<simulation>] to [<output>/base]:
    an existing base directory is never overwritten. *)
Theorem base_copied_only_when_missing w args src dst :
  In (ECopytree src dst) (run_trace w args) ->
  is_known_simulation (simulation args) = true /\ base_exists w = false /\
  src = join (join (join (drl_base w) "openfoam") "test_cases") (simulation args) /\
  dst = join (output args) "base".
Proof.
  destruct (is_known_simulation (simulation args)) eqn:Hk.
  - destruct (run_trace_known_prefix w args Hk) as (rest & E & Hr).
    rewrite E, in_app_iff; intros [H|H]; [|apply Hr in H; discriminate].
    unfold setup_prefix, copy_events in H; destruct (base_exists w); simpl in H;
      intuition congruence.
  - rewrite (proj2 (run_failed_setup _ _ _ _ (setup_unknown_simulation w args Hk))); simpl.
    intros [H|[]]; discriminate.
Qed.

Lemma base_copied_only_when_missing_witness :
  is_known_simulation (simulation args_fresh) = true /\ base_exists world_ok = false /\
  "/opt/drlfoam/openfoam/test_cases/rotatingCylinder2D"
  = join (join (join (drl_base world_ok) "openfoam") "test_cases") (simulation args_fresh) /\
  "test_training/base" = join (output args_fresh) "base".
Proof.
  apply (base_copied_only_when_missing world_ok args_fresh).
  vm_compute; auto.
Defined.


(** X: a resume loads the state from [os.path.join(output, checkpoint)]
    and from nowhere else: a relative checkpoint is read inside the output
    directory, an absolute one as given. *)
Theorem checkpoint_loaded_from_output w args b :
  is_known_simulation (simulation args) = true -> finish_ok w = true ->
  backend_of (lower (environment args)) = Some b -> checkpoint args <> "" ->
  In (ELoadState (join (output args) (checkpoint args))) (run_trace w args) /\
  (forall p, In (ELoadState p) (run_trace w args) -> p = join (output args) (checkpoint args)).
Proof.
  intros Hk Hf Hb Hc; apply String.eqb_neq in Hc.
  remember (history w) as hl eqn:Hh; symmetry in Hh.
  destruct hl as [|k h _] using rev_ind.
  - rewrite (proj2 (run_failed_setup _ _ _ _ (setup_resume_no_history w args b Hk Hf Hb Hc Hh))).
    cbn [trace]; split.
    + apply in_app_iff; right; simpl; auto.
    + intros p Hp; apply in_app_iff in Hp as [Hp|Hp].
      * apply setup_prefix_events in Hp; exact (False_ind _ Hp).
      * simpl in Hp; intuition congruence.
  - pose proof (setup_resume w args b h k Hk Hf Hb Hc Hh) as Hs.
    destruct (main_run_shape w args _ _ Hs) as (done & rest & tl & E1 & _).
    split.
    + rewrite E1; apply in_app_iff; left; cbn [trace]; apply in_app_iff; right; simpl; auto.
    + intros p Hp; destruct (run_trace_origin w args _ _ _ Hs Hp) as [Hp'|[Hp'|Hp']].
      * cbn [trace] in Hp'; apply in_app_iff in Hp' as [Hp'|Hp'].
        -- apply setup_prefix_events in Hp'; exact (False_ind _ Hp').
        -- simpl in Hp'; intuition congruence.
      * simpl in Hp'; intuition congruence.
      * discriminate.
Qed.

Lemma checkpoint_loaded_from_output_witness :
  In (ELoadState "/data/checkpoint_3.pt") (run_trace world_ok args_abs) /\
  In (ELoadState "test_training/checkpoint_3.pt") (run_trace world_ok args_resume).
Proof.
  split.
  - exact (proj1 (checkpoint_loaded_from_output world_ok args_abs SlurmBackend
                    eq_refl eq_refl eq_refl ltac:(discriminate))).
  - exact (proj1 (checkpoint_loaded_from_output world_ok args_resume LocalBackend
                    eq_refl eq_refl eq_refl ltac:(discriminate))).
Defined.

(** X: when the finish time is rejected the run stops right after the
    [check_finish_time] call: the output directory is created and the base
    case copied (if missing), but no buffer, agent or training call is made. *)
Theorem finish_time_rejected w args :
  is_known_simulation (simulation args) = true -> finish_ok w = false ->
  run_result w args = inl FinishTimeRejected /\ run_trace w args = setup_prefix w args.
Proof.
  intros Hk Hf; exact (run_failed_setup _ _ _ _ (setup_finish_rejected w args Hk Hf)).
Qed.

Lemma finish_time_rejected_witness :
  run_result world_late args_fresh = inl FinishTimeRejected /\
  run_trace world_late args_fresh = setup_prefix world_late args_fresh.
Proof. exact (finish_time_rejected world_late args_fresh eq_refl eq_refl). Defined.

